(** * Image-to-text converter: the [Home] component of [src/app/page.tsx]

    A shallow embedding of the state wiring of the page component: the
    [useState] cells, the [imageFileRef] ref, the two event handlers
    [handleImageChange] and [processImage], the tesseract [logger] callback,
    the [useEffect] cleanup that revokes object URLs, what the JSX renders
    from the state (preview, convert button, error banner, result panel) and
    the copy button.

    The OCR engine (tesseract.js), the browser's object-URL store and React's
    effect scheduling are the environment.  The engine is a script that says
    which logger messages it delivers and how each of its promises settles;
    the URL store is a counter plus the set of live handles; React commits
    effects after every handler. *)

From Stdlib Require Import ZArith QArith Qround Lqa String List Sorted DecimalString.
From stdpp Require Import base gmap sets sorting.

Set Warnings "-clear-no-such-hyp".

Open Scope Z_scope.
Open Scope string_scope.
Open Scope list_scope.

(** ** Values of the environment *)

(** A [File] picked in the file input. *)
Record File := mkFile { fileName : string; fileType : string }.

(** An object URL ([blob:...] string) is identified by its serial number in
    the browser's URL store; as a string it is never empty, hence truthy. *)
Definition ObjectURL := nat.

(** What a rejected promise or a [throw] carries: an [Error] instance with its
    [message], or any other value (a string, a number, a plain object). *)
Inductive JsValue :=
| JsError (message : string)
| JsOther (repr : string).

(** How an awaited promise settles. *)
Inductive Settled (A : Type) :=
| Resolve (a : A)
| Reject (err : JsValue).
Arguments Resolve {A} a.
Arguments Reject {A} err.

(** The message tesseract.js passes to the [logger]. *)
Module LoggerMessage.
Record t := mk { status : string; progress : Q }.
End LoggerMessage.

(** The behaviour of tesseract.js during one [processImage] call. *)
Record Tesseract := mkTesseract {
  create_messages : list LoggerMessage.t;
  create_result : Settled unit;
  recognize_messages : list LoggerMessage.t;
  recognize_result : Settled string;
  terminate_result : Settled unit
}.

(** ** The component and its world *)

(** The six [useState] cells and the [useRef] cell of [Home]. *)
Record Home := mkHome {
  selectedImage : option ObjectURL;
  extractedText : string;
  progress : Z;
  progressLabel : string;
  loading : bool;
  error : string;
  imageFileRef : option File
}.

(** The browser's object-URL store. *)
Record Browser := mkBrowser {
  nextURL : nat;
  liveURLs : gset nat
}.

(** Observable calls, in the order they are made. *)
Inductive Event :=
| WorkerCreated (lang : string) (oem : Z) (* createWorker(lang, oem, ...) resolved *)
| Recognize (image : option File) (* worker.recognize(...) called *)
| Terminate                (* worker.terminate() called *)
| SetProgress (n : Z)      (* setProgress(n) called *)
| CreateObjectURL (u : ObjectURL)
| RevokeObjectURL (u : ObjectURL).

(** [effectDep] is the [selectedImage] captured by the cleanup closure that
    the last committed [useEffect] registered ([None] before the mount). *)
Record World := mkWorld {
  home : Home;
  browser : Browser;
  effectDep : option (option ObjectURL);
  log : list Event
}.

(** ** A state monad with exceptions *)

Inductive Completion (A : Type) :=
| Normal (a : A)
| Throw (err : JsValue).
Arguments Normal {A} a.
Arguments Throw {A} err.

Definition M (A : Type) : Type := World -> Completion A * World.

#[global] Instance M_ret : MRet M := fun A (a : A) w => (Normal a, w).

#[global] Instance M_bind : MBind M := fun A B (k : A -> M B) (c : M A) w =>
  match c w with
  | (Normal a, w') => k a w'
  | (Throw e, w') => (Throw e, w')
  end.

Definition throw {A} (e : JsValue) : M A := fun w => (Throw e, w).

(** [try { body } catch (err) { handler err } finally { final }] *)
Definition try_catch_finally (body : M unit) (handler : JsValue -> M unit)
    (final : M unit) : M unit := fun w =>
  let r := match body w with
           | (Normal a, w') => (Normal a, w')
           | (Throw e, w') => handler e w'
           end in
  match final (snd r) with
  | (Normal _, w'') => (fst r, w'')
  | (Throw e, w'') => (Throw e, w'')
  end.

(** [await p] for a promise that settles as [s]. *)
Definition await {A} (s : Settled A) : M A :=
  match s with
  | Resolve a => mret a
  | Reject e => throw e
  end.

Definition emit (e : Event) : M unit := fun w =>
  (Normal tt, mkWorld (home w) (browser w) (effectDep w) (log w ++ [e])).

Definition modify_home (f : Home -> Home) : M unit := fun w =>
  (Normal tt, mkWorld (f (home w)) (browser w) (effectDep w) (log w)).

Definition get_home : M Home := fun w => (Normal (home w), w).

(** ** State setters *)

Definition setSelectedImage (v : option ObjectURL) : M unit :=
  modify_home (fun h => mkHome v (extractedText h) (progress h)
    (progressLabel h) (loading h) (error h) (imageFileRef h)).

Definition setExtractedText (v : string) : M unit :=
  modify_home (fun h => mkHome (selectedImage h) v (progress h)
    (progressLabel h) (loading h) (error h) (imageFileRef h)).

Definition setProgress (v : Z) : M unit :=
  emit (SetProgress v) ;;
  modify_home (fun h => mkHome (selectedImage h) (extractedText h) v
    (progressLabel h) (loading h) (error h) (imageFileRef h)).

Definition setProgressLabel (v : string) : M unit :=
  modify_home (fun h => mkHome (selectedImage h) (extractedText h) (progress h)
    v (loading h) (error h) (imageFileRef h)).

Definition setLoading (v : bool) : M unit :=
  modify_home (fun h => mkHome (selectedImage h) (extractedText h) (progress h)
    (progressLabel h) v (error h) (imageFileRef h)).

Definition setError (v : string) : M unit :=
  modify_home (fun h => mkHome (selectedImage h) (extractedText h) (progress h)
    (progressLabel h) (loading h) v (imageFileRef h)).

Definition set_imageFileRef (v : option File) : M unit :=
  modify_home (fun h => mkHome (selectedImage h) (extractedText h) (progress h)
    (progressLabel h) (loading h) (error h) v).

(** ** Numbers *)

(** [Math.round]: the nearest integer, ties towards plus infinity.  The
    fractions reported by the engine are taken as exact rationals and the
    percentages as integers; the rounding error of the double product
    [m.progress * 100] is not represented. *)
Definition Math_round (x : Q) : Z := Qfloor (x + (1 # 2)).

(** The decimal rendering of an integer in a template literal. *)
Definition Number_toString (n : Z) : string :=
  NilZero.string_of_int (Z.to_int n).

(** ** The object-URL store *)

Definition URL_createObjectURL (f : File) : M ObjectURL := fun w =>
  let u := nextURL (browser w) in
  (Normal u,
   mkWorld (home w) (mkBrowser (S u) ({[ u ]} ∪ liveURLs (browser w)))
     (effectDep w) (log w ++ [CreateObjectURL u])).

Definition URL_revokeObjectURL (u : ObjectURL) : M unit := fun w =>
  (Normal tt,
   mkWorld (home w)
     (mkBrowser (nextURL (browser w)) (liveURLs (browser w) ∖ {[ u ]}))
     (effectDep w) (log w ++ [RevokeObjectURL u])).

(** ** [handleImageChange] *)

(** [event.target.files]: [null] or a list of files. *)
Record ChangeEvent := mkChangeEvent { files : option (list File) }.

Definition handleImageChange (event : ChangeEvent) : M unit :=
  match files event with
  | Some (file :: _) =>
      set_imageFileRef (Some file) ;;
      u ← URL_createObjectURL file ;
      setSelectedImage (Some u) ;;
      setExtractedText "" ;;
      setProgress 0 ;;
      setProgressLabel "Idle" ;;
      setError ""
  | _ => mret tt
  end.

(** ** The [logger] callback and [processImage] *)

(** Console output ([console.log], [console.error]) is left out: it changes
    neither the component nor the engine. *)

Definition logger (m : LoggerMessage.t) : M unit :=
  if String.eqb (LoggerMessage.status m) "recognizing text" then
    setProgress (Math_round (LoggerMessage.progress m * 100)) ;;
    setProgressLabel
      ("Recognizing text: "
       ++ Number_toString (Math_round (LoggerMessage.progress m * 100))
       ++ "%")
  else if String.eqb (LoggerMessage.status m) "loading tesseract core" then
    setProgressLabel "Loading Tesseract core..."
  else if String.eqb (LoggerMessage.status m) "initializing tesseract" then
    setProgressLabel "Initializing Tesseract..."
  else if String.eqb (LoggerMessage.status m) "loading language traineddata" then
    setProgressLabel "Loading language data..."
  else if String.eqb (LoggerMessage.status m) "done" then
    setProgressLabel "Finishing up..."
  else mret tt.

(** Messages are handed to the callback one after the other. *)
Fixpoint deliver (ms : list LoggerMessage.t) : M unit :=
  match ms with
  | [] => mret tt
  | m :: ms' => logger m ;; deliver ms'
  end.

(** [await createWorker(lang, oem, { logger })] *)
Definition createWorker (lang : string) (oem : Z) (t : Tesseract) : M unit :=
  deliver (create_messages t) ;;
  await (create_result t) ;;
  emit (WorkerCreated lang oem).

(** [await worker.recognize(image)], giving [data.text] *)
Definition worker_recognize (t : Tesseract) (image : option File) : M string :=
  emit (Recognize image) ;;
  deliver (recognize_messages t) ;;
  await (recognize_result t).

(** [await worker.terminate()] *)
Definition worker_terminate (t : Tesseract) : M unit :=
  emit Terminate ;; await (terminate_result t).

Definition processImage (t : Tesseract) : M unit :=
  h ← get_home ;
  match imageFileRef h with
  | None => setError "Please select an image first to start conversion."
  | Some _ =>
      setLoading true ;;
      setExtractedText "" ;;
      setProgress 0 ;;
      setProgressLabel "Loading Tesseract core..." ;;
      setError "" ;;
      try_catch_finally
        (createWorker "eng" 1 t ;;
         current ← get_home ;
         text ← worker_recognize t (imageFileRef current) ;
         setExtractedText text ;;
         setProgress 100 ;;
         setProgressLabel "Done!" ;;
         worker_terminate t)
        (fun err =>
           match err with
           | JsError message =>
               setError ("Failed to extract text: " ++ message)
           | JsOther _ =>
               setError "Failed to extract text: An unexpected error occurred."
           end ;;
           setExtractedText "" ;;
           setProgress 0 ;;
           setProgressLabel "Error")
        (setLoading false)
  end.

(** ** The [useEffect] cleanup and React's commit *)

(** The cleanup closure: [if (selectedImage) URL.revokeObjectURL(selectedImage)],
    where [selectedImage] is the value of the render that registered it. *)
Definition effect_cleanup (captured : option ObjectURL) : M unit :=
  match captured with
  | Some u => URL_revokeObjectURL u
  | None => mret tt
  end.

Definition set_effectDep (d : option ObjectURL) : M unit := fun w =>
  (Normal tt, mkWorld (home w) (browser w) (Some d) (log w)).

(** [useEffect(() => cleanup, [selectedImage])] at commit time: the effect
    runs on mount; later it runs again only when [selectedImage] differs from
    the value of its last run, after the cleanup of that last run. *)
Definition commit_effects : M unit := fun w =>
  match effectDep w with
  | None => set_effectDep (selectedImage (home w)) w
  | Some dep =>
      if decide (dep = selectedImage (home w)) then (Normal tt, w)
      else (effect_cleanup dep ;; set_effectDep (selectedImage (home w))) w
  end.

(** On unmount React runs the cleanup of the last committed effect. *)
Definition unmount : M unit := fun w =>
  match effectDep w with
  | Some dep => effect_cleanup dep w
  | None => (Normal tt, w)
  end.

(** ** The rendered controls *)

(** [disabled={!imageFileRef.current || loading}] on the convert button. *)
Definition convertDisabled (h : Home) : bool :=
  negb (bool_decide (is_Some (imageFileRef h))) || loading h.

(** [onChange] of the file input, followed by the re-render it causes. *)
Definition onChange (event : ChangeEvent) : M unit :=
  handleImageChange event ;; commit_effects.

(** A click on the convert button: a disabled button delivers no click. *)
Definition onClick (t : Tesseract) : M unit :=
  h ← get_home ;
  if convertDisabled h then mret tt
  else processImage t ;; commit_effects.

Inductive Action :=
| Change (event : ChangeEvent)
| Click (t : Tesseract).

Definition dispatch (a : Action) : M unit :=
  match a with
  | Change event => onChange event
  | Click t => onClick t
  end.

Definition exec {A} (c : M A) (w : World) : World := snd (c w).

Definition run (acts : list Action) (w : World) : World :=
  fold_left (fun w a => exec (dispatch a) w) acts w.

(** The component before its first render commits, and once mounted. *)
Definition initial : World :=
  mkWorld (mkHome None "" 0 "Idle" false "" None) (mkBrowser 0 ∅) None [].

Definition mounted : World := exec commit_effects initial.

(** The user picks exactly [file] in the file input. *)
Definition select (file : File) : Action := Change (mkChangeEvent (Some [file])).

(** ** Reading a run *)

Definition is_recognizing (m : LoggerMessage.t) : bool :=
  String.eqb (LoggerMessage.status m) "recognizing text".

Definition percent (m : LoggerMessage.t) : Z :=
  Math_round (LoggerMessage.progress m * 100).

(** The percentages a list of messages makes the logger store, in order. *)
Definition percents (ms : list LoggerMessage.t) : list Z :=
  map percent (List.filter is_recognizing ms).

(** The values passed to [setProgress], in order. *)
Fixpoint progress_trace (evs : list Event) : list Z :=
  match evs with
  | [] => []
  | SetProgress n :: evs' => n :: progress_trace evs'
  | _ :: evs' => progress_trace evs'
  end.

(** The fraction of a message lies between 0 and 1. *)
Definition in_unit_interval (m : LoggerMessage.t) : Prop :=
  (0 <= LoggerMessage.progress m <= 1)%Q.

(** The fraction reported by [m1] is at most the one reported by [m2]. *)
Definition fraction_le (m1 m2 : LoggerMessage.t) : Prop :=
  (LoggerMessage.progress m1 <= LoggerMessage.progress m2)%Q.

(** The calls a computation adds to the log. *)
Definition events_of {A} (c : M A) (w : World) : list Event :=
  drop (length (log w)) (log (exec c w)).

Definition terminations (evs : list Event) : nat :=
  length (List.filter (fun e => match e with Terminate => true | _ => false end) evs).

Definition sessions (evs : list Event) : nat :=
  length (List.filter (fun e => match e with WorkerCreated _ _ => true | _ => false end) evs).

(** How the three awaited promises of a job combine. *)
Inductive Outcome :=
| Succeeded (text : string)
| Failed (err : JsValue).

Definition outcome (t : Tesseract) : Outcome :=
  match create_result t with
  | Reject e => Failed e
  | Resolve _ =>
      match recognize_result t with
      | Reject e => Failed e
      | Resolve text =>
          match terminate_result t with
          | Reject e => Failed e
          | Resolve _ => Succeeded text
          end
      end
  end.

(** The calls of a job on [file], in order. *)
Definition job_events (t : Tesseract) (file : File) : list Event :=
  SetProgress 0 :: map SetProgress (percents (create_messages t)) ++
  match create_result t with
  | Reject _ => [SetProgress 0]
  | Resolve _ =>
      WorkerCreated "eng" 1 :: Recognize (Some file) ::
      map SetProgress (percents (recognize_messages t)) ++
      match recognize_result t with
      | Reject _ => [SetProgress 0]
      | Resolve _ =>
          SetProgress 100 :: Terminate ::
          match terminate_result t with
          | Reject _ => [SetProgress 0]
          | Resolve _ => []
          end
      end
  end.

(** The text of the error banner after a failure. *)
Definition failure_text (err : JsValue) : string :=
  match err with
  | JsError message => "Failed to extract text: " ++ message
  | JsOther _ => "Failed to extract text: An unexpected error occurred."
  end.

Definition settled_home (t : Tesseract) (h : Home) : Home :=
  match outcome t with
  | Succeeded text =>
      mkHome (selectedImage h) text 100 "Done!" false "" (imageFileRef h)
  | Failed err =>
      mkHome (selectedImage h) "" 0 "Error" false (failure_text err)
        (imageFileRef h)
  end.

(** Between two events: the registered cleanup holds the current
    [selectedImage], which is the only live handle, and the store has issued
    it. *)
Definition handles_ok (w : World) : Prop :=
  effectDep w = Some (selectedImage (home w)) /\
  liveURLs (browser w) =
    match selectedImage (home w) with
    | Some u => {[ u ]}
    | None => ∅
    end /\
  match selectedImage (home w) with
  | Some u => (u < nextURL (browser w))%nat
  | None => True
  end.

(** ** What the page renders *)

(** A string used as a JSX condition: the empty string is falsy. *)
Definition truthy (s : string) : bool := negb (String.eqb s "").

(** [{selectedImage && <Image src={selectedImage} ... />}]: the source of the
    preview image, if one is rendered. *)
Definition previewImage (h : Home) : option ObjectURL := selectedImage h.

(** [{error && <p ...>{error}</p>}]: the text of the error banner, if one is
    rendered. *)
Definition errorBanner (h : Home) : option string :=
  if truthy (error h) then Some (error h) else None.

(** [{extractedText && <div> ... <textarea value={extractedText} /> ...
    </div>}]: the content of the result panel, if one is rendered.  The copy
    button lives inside this panel. *)
Definition resultPanel (h : Home) : option string :=
  if truthy (extractedText h) then Some (extractedText h) else None.

(** The text of the convert button:
    [loading ? progressLabel + ' ' + (progress > 0 && progress < 100 ?
    `(${progress}%)` : '') : 'Convert Image to Text'] *)
Definition convertButtonText (h : Home) : string :=
  if loading h then
    String.append (progressLabel h)
      (String.append " "
         (if ((0 <? progress h) && (progress h <? 100))%Z
          then String.append "(" (String.append (Number_toString (progress h)) "%)")
          else ""))
  else "Convert Image to Text".

(** ** The copy button *)

(** What lies outside the component: the system clipboard, the alerts shown
    and the errors written to the console. *)
Record Desktop := mkDesktop {
  clipboard : string;
  alerts : list string;
  consoleErrors : list (string * JsValue)
}.

(** [navigator.clipboard.writeText(extractedText)
      .then(() => alert('Text copied to clipboard!'))
      .catch(err => console.error('Failed to copy text: ', err))],
    where [writeText] says how the clipboard promise settles. *)
Definition copyText (writeText : Settled unit) (h : Home) (d : Desktop) : Desktop :=
  match writeText with
  | Resolve _ =>
      mkDesktop (extractedText h) (alerts d ++ ["Text copied to clipboard!"])
        (consoleErrors d)
  | Reject err =>
      mkDesktop (clipboard d) (alerts d)
        (consoleErrors d ++ [("Failed to copy text: ", err)])
  end.

(** A click where the copy button is: there is a button only when the result
    panel is rendered. *)
Definition onCopyClick (writeText : Settled unit) (h : Home) (d : Desktop) : Desktop :=
  match resultPanel h with
  | Some _ => copyText writeText h d
  | None => d
  end.

(** ** More ways to read a run *)

Definition recognitions (evs : list Event) : nat :=
  length (List.filter (fun e => match e with Recognize _ => true | _ => false end) evs).

(** The object URLs created, and those revoked, in order. *)
Fixpoint created_urls (evs : list Event) : list ObjectURL :=
  match evs with
  | [] => []
  | CreateObjectURL u :: evs' => u :: created_urls evs'
  | _ :: evs' => created_urls evs'
  end.

Fixpoint revoked_urls (evs : list Event) : list ObjectURL :=
  match evs with
  | [] => []
  | RevokeObjectURL u :: evs' => u :: revoked_urls evs'
  | _ :: evs' => revoked_urls evs'
  end.

(** The error cell is empty or holds a message written by the [catch] block
    of [processImage]. *)
Definition error_from_catch (h : Home) : Prop :=
  error h = "" \/
  exists message, error h = String.append "Failed to extract text: " message.

(** A file is held in [imageFileRef] exactly when a preview is shown. *)
Definition selection_in_sync (h : Home) : Prop :=
  match selectedImage h, imageFileRef h with
  | Some _, Some _ => True
  | None, None => True
  | _, _ => False
  end.

(** The object URLs in the order of their creation, and those among them that
    have been revoked: all but the one on display. *)
Definition urls_accounted (w : World) : Prop :=
  created_urls (log w) = seq 0 (nextURL (browser w)) /\
  match selectedImage (home w) with
  | Some u => nextURL (browser w) = S u /\ revoked_urls (log w) = seq 0 u
  | None => nextURL (browser w) = 0%nat /\ revoked_urls (log w) = []
  end.

(** What holds of the component between two events. *)
Definition at_rest (w : World) : Prop :=
  handles_ok w /\ selection_in_sync (home w) /\ error_from_catch (home w) /\
  loading (home w) = false /\ urls_accounted w.

(** A series of clicks where the copy button is, each with the component
    state of its moment and the way its clipboard write settles. *)
Definition copy_clicks (clicks : list (Settled unit * Home)) (d : Desktop) : Desktop :=
  fold_left (fun d c => onCopyClick (fst c) (snd c) d) clicks d.

(** ** Scenarios *)

Definition receipt_png : File := mkFile "receipt.png" "image/png".

(** A world in which [receipt.png] has just been selected. *)
Definition receipt_selected : World := run [select receipt_png] mounted.

(** Engine load, initialisation, model load, recognition at 25% and 90%,
    then the text of the receipt. *)
Definition receipt_job : Tesseract :=
  mkTesseract
    [LoggerMessage.mk "loading tesseract core" 0;
     LoggerMessage.mk "initializing tesseract" 0;
     LoggerMessage.mk "loading language traineddata" (1 # 2)]
    (Resolve tt)
    [LoggerMessage.mk "recognizing text" (1 # 4);
     LoggerMessage.mk "recognizing text" (9 # 10);
     LoggerMessage.mk "done" 1]
    (Resolve "TOTAL $12.34")
    (Resolve tt).

(** The language model cannot be fetched: [createWorker] rejects. *)
Definition network_error_job : Tesseract :=
  mkTesseract
    [LoggerMessage.mk "loading tesseract core" 0;
     LoggerMessage.mk "initializing tesseract" 0;
     LoggerMessage.mk "loading language traineddata" 0]
    (Reject (JsError "network error"))
    [] (Resolve "") (Resolve tt).

(** The session is created, recognition reaches 50% and then rejects. *)
Definition recognize_rejects_job : Tesseract :=
  mkTesseract
    [LoggerMessage.mk "loading tesseract core" 0]
    (Resolve tt)
    [LoggerMessage.mk "recognizing text" (1 # 2)]
    (Reject (JsError "network error"))
    (Resolve tt).

(** Recognition succeeds but releasing the session rejects. *)
Definition terminate_rejects_job : Tesseract :=
  mkTesseract [] (Resolve tt)
    [LoggerMessage.mk "recognizing text" 1]
    (Resolve "TOTAL $12.34")
    (Reject (JsError "worker already gone")).

(** The engine reports 90% and then 25%. *)
Definition regressing_job : Tesseract :=
  mkTesseract [] (Resolve tt)
    [LoggerMessage.mk "recognizing text" (9 # 10);
     LoggerMessage.mk "recognizing text" (1 # 4)]
    (Resolve "TOTAL $12.34")
    (Resolve tt).

(** A job on [receipt.png] is under way, at 50%. *)
Definition busy : World :=
  mkWorld
    (mkHome (Some 0%nat) "" 50 "Recognizing text: 50%" true ""
       (Some receipt_png))
    (mkBrowser 1 {[ 0%nat ]}) (Some (Some 0%nat))
    [CreateObjectURL 0%nat; SetProgress 0; SetProgress 0; WorkerCreated "eng" 1;
     Recognize (Some receipt_png); SetProgress 50].

(** * Properties *)

(** ** Rounding *)


Lemma Math_round_mono (x y : Q) : (x <= y)%Q -> Math_round x <= Math_round y.
Proof.
  intros H. unfold Math_round. apply Qfloor_resp_le. lra.
Qed.

Lemma percent_range (m : LoggerMessage.t) :
  (0 <= LoggerMessage.progress m <= 1)%Q -> 0 <= percent m <= 100.
Proof.
  intros [H0 H1]. unfold percent. split.
  - apply (Math_round_mono 0). lra.
  - apply (Math_round_mono _ 100). lra.
Qed.

(** ** The logger, one message at a time *)

Lemma logger_recognizing (m : LoggerMessage.t) (w : World) :
  is_recognizing m = true ->
  logger m w =
    (Normal tt,
     mkWorld
       (mkHome (selectedImage (home w)) (extractedText (home w)) (percent m)
          ("Recognizing text: " ++ Number_toString (percent m) ++ "%")
          (loading (home w)) (error (home w)) (imageFileRef (home w)))
       (browser w) (effectDep w) (log w ++ [SetProgress (percent m)])).
Proof.
  unfold is_recognizing, logger. intros ->. reflexivity.
Qed.

Lemma logger_other (m : LoggerMessage.t) (w : World) :
  is_recognizing m = false ->
  exists label,
    logger m w =
      (Normal tt,
       mkWorld
         (mkHome (selectedImage (home w)) (extractedText (home w))
            (progress (home w)) label
            (loading (home w)) (error (home w)) (imageFileRef (home w)))
         (browser w) (effectDep w) (log w)).
Proof.
  unfold is_recognizing, logger. intros ->.
  destruct w as [[si et p pl ld er fr] b ed lg].
  repeat match goal with
         | |- context [if ?c then _ else _] => destruct c
         end; eexists; reflexivity.
Qed.

(** ** The logger over a whole list of messages *)

Lemma last_cons_default {A} (a d : A) (l : list A) :
  List.last (a :: l) d = List.last l a.
Proof.
  revert a d. induction l as [|b l IH]; intros a d; [reflexivity|].
  change (List.last (a :: b :: l) d) with (List.last (b :: l) d).
  rewrite (IH b d), (IH b a). reflexivity.
Qed.

Lemma deliver_spec (ms : list LoggerMessage.t) (w : World) :
  exists label,
    deliver ms w =
      (Normal tt,
       mkWorld
         (mkHome (selectedImage (home w)) (extractedText (home w))
            (List.last (percents ms) (progress (home w))) label
            (loading (home w)) (error (home w)) (imageFileRef (home w)))
         (browser w) (effectDep w) (log w ++ map SetProgress (percents ms))).
Proof.
  revert w. induction ms as [|m ms IH]; intros w.
  - exists (progressLabel (home w)). destruct w as [[si et p pl ld er fr] b ed lg].
    cbn. rewrite app_nil_r. reflexivity.
  - cbn [deliver]. unfold mbind, M_bind.
    unfold percents. cbn [List.filter].
    destruct (is_recognizing m) eqn:Hm.
    + rewrite (logger_recognizing m w Hm).
      destruct (IH (mkWorld
         (mkHome (selectedImage (home w)) (extractedText (home w)) (percent m)
            ("Recognizing text: " ++ Number_toString (percent m) ++ "%")
            (loading (home w)) (error (home w)) (imageFileRef (home w)))
         (browser w) (effectDep w) (log w ++ [SetProgress (percent m)])))
        as [label E].
      exists label. rewrite E. cbn [home browser effectDep log selectedImage
        extractedText progress loading error imageFileRef map].
      fold (percents ms). rewrite last_cons_default, <- app_assoc.
      reflexivity.
    + destruct (logger_other m w Hm) as [l0 E0]. rewrite E0.
      match goal with
      | |- context [deliver ms ?w1] => destruct (IH w1) as [label E]
      end.
      exists label. rewrite E. reflexivity.
Qed.

(** ** One conversion job, start to end *)

Ltac eval_M :=
  cbv -[deliver app String.append percents map List.filter Number_toString
        Math_round failure_text union singleton difference empty decide].

Ltac run_deliver :=
  match goal with
  | |- context [deliver ?ms ?w1] =>
      let l := fresh "label" in
      let E := fresh "E" in
      destruct (deliver_spec ms w1) as [l E]; rewrite E; clear E; eval_M
  end.

Lemma processImage_run (t : Tesseract) (w : World) (file : File) :
  imageFileRef (home w) = Some file ->
  processImage t w =
    (Normal tt,
     mkWorld (settled_home t (home w)) (browser w) (effectDep w)
       (log w ++ job_events t file)).
Proof.
  destruct w as [[si et p pl ld er fr] b ed lg]. cbn. intros ->.
  destruct t as [cm cr rm rr tr].
  unfold settled_home, outcome, job_events. eval_M.
  run_deliver.
  destruct cr as [[]|e]; eval_M.
  - run_deliver.
    destruct rr as [text|e]; eval_M.
    + destruct tr as [[]|e]; eval_M.
      * rewrite <- !app_assoc. reflexivity.
      * destruct e; eval_M; rewrite <- !app_assoc; reflexivity.
    + destruct e; eval_M; rewrite <- !app_assoc; reflexivity.
  - destruct e; eval_M; rewrite <- !app_assoc; reflexivity.
Qed.

Lemma events_of_log {A} (c : M A) (w : World) (evs : list Event) :
  log (exec c w) = log w ++ evs -> events_of c w = evs.
Proof.
  intros E. unfold events_of. rewrite E. apply drop_app_length.
Qed.

Lemma processImage_events (t : Tesseract) (w : World) (file : File) :
  imageFileRef (home w) = Some file ->
  events_of (processImage t) w = job_events t file.
Proof.
  intros Hf. apply events_of_log. unfold exec.
  rewrite (processImage_run t w file Hf). reflexivity.
Qed.

Lemma processImage_home (t : Tesseract) (w : World) (file : File) :
  imageFileRef (home w) = Some file ->
  home (exec (processImage t) w) = settled_home t (home w).
Proof.
  intros Hf. unfold exec. rewrite (processImage_run t w file Hf). reflexivity.
Qed.

Lemma processImage_no_file (t : Tesseract) (w : World) :
  imageFileRef (home w) = None ->
  processImage t w =
    (Normal tt,
     mkWorld
       (mkHome (selectedImage (home w)) (extractedText (home w))
          (progress (home w)) (progressLabel (home w)) (loading (home w))
          "Please select an image first to start conversion." None)
       (browser w) (effectDep w) (log w)).
Proof.
  destruct w as [[si et p pl ld er fr] b ed lg]. cbn. intros ->. reflexivity.
Qed.

(** ** Counting sessions and releases *)

Lemma terminations_app (l1 l2 : list Event) :
  terminations (l1 ++ l2) = (terminations l1 + terminations l2)%nat.
Proof. unfold terminations. rewrite List.filter_app. apply length_app. Qed.

Lemma sessions_app (l1 l2 : list Event) :
  sessions (l1 ++ l2) = (sessions l1 + sessions l2)%nat.
Proof. unfold sessions. rewrite List.filter_app. apply length_app. Qed.

Lemma terminations_SetProgress (l : list Z) :
  terminations (map SetProgress l) = 0%nat.
Proof. induction l as [|n l IH]; [reflexivity | exact IH]. Qed.

Lemma sessions_SetProgress (l : list Z) :
  sessions (map SetProgress l) = 0%nat.
Proof. induction l as [|n l IH]; [reflexivity | exact IH]. Qed.

Lemma terminations_cons (e : Event) (l : list Event) :
  terminations (e :: l) =
    ((match e with Terminate => 1 | _ => 0 end) + terminations l)%nat.
Proof. destruct e; reflexivity. Qed.

Lemma sessions_cons (e : Event) (l : list Event) :
  sessions (e :: l) =
    ((match e with WorkerCreated _ _ => 1 | _ => 0 end) + sessions l)%nat.
Proof. destruct e; reflexivity. Qed.

Ltac count_events :=
  repeat (rewrite sessions_cons || rewrite sessions_app
          || rewrite sessions_SetProgress || rewrite terminations_cons
          || rewrite terminations_app || rewrite terminations_SetProgress).

(** On the success path the session is released exactly once. *)
Lemma success_releases_once (t : Tesseract) (w : World) (file : File) (text : string) :
  imageFileRef (home w) = Some file ->
  create_result t = Resolve tt ->
  recognize_result t = Resolve text ->
  sessions (events_of (processImage t) w) = 1%nat /\
  terminations (events_of (processImage t) w) = 1%nat.
Proof.
  intros Hf Hc Hr. rewrite (processImage_events t w file Hf).
  unfold job_events. rewrite Hc, Hr.
  destruct (terminate_result t); count_events; split; reflexivity.
Qed.

(** C1, on the code: when [createWorker] resolves and [worker.recognize]
    rejects, the job has created one session and never calls
    [worker.terminate()]: the call sits at the end of the [try] block and the
    [finally] block only clears [loading].  The session is released zero
    times, not exactly once. *)
Theorem C1_recognize_rejects_session_not_released
    (t : Tesseract) (w : World) (file : File) (err : JsValue) :
  imageFileRef (home w) = Some file ->
  create_result t = Resolve tt ->
  recognize_result t = Reject err ->
  sessions (events_of (processImage t) w) = 1%nat /\
  terminations (events_of (processImage t) w) = 0%nat.
Proof.
  intros Hf Hc Hr. rewrite (processImage_events t w file Hf).
  unfold job_events. rewrite Hc, Hr.
  count_events; split; reflexivity.
Qed.

Lemma C1_recognize_rejects_witness :
  sessions (events_of (processImage recognize_rejects_job) receipt_selected) = 1%nat /\
  terminations (events_of (processImage recognize_rejects_job) receipt_selected) = 0%nat.
Proof.
  apply (C1_recognize_rejects_session_not_released recognize_rejects_job
           receipt_selected receipt_png (JsError "network error"));
    reflexivity.
Defined.

(** ** Starting a job *)




(** C4: with no file selected, [processImage] only sets the error message
    asking for an image; [loading], [extractedText], [progress] and
    [progressLabel] keep their values and nothing is called, so no job and no
    recognition session come into being. *)
Theorem C4_no_file_only_sets_error (t : Tesseract) (w : World) :
  imageFileRef (home w) = None ->
  let w' := exec (processImage t) w in
  error (home w') = "Please select an image first to start conversion." /\
  loading (home w') = loading (home w) /\
  extractedText (home w') = extractedText (home w) /\
  progress (home w') = progress (home w) /\
  progressLabel (home w') = progressLabel (home w) /\
  selectedImage (home w') = selectedImage (home w) /\
  imageFileRef (home w') = None /\
  events_of (processImage t) w = [] /\
  browser w' = browser w.
Proof.
  intros Hf w'. subst w'. unfold events_of, exec.
  rewrite (processImage_no_file t w Hf). cbn.
  rewrite drop_all. repeat split; reflexivity.
Qed.

Lemma C4_no_file_witness :
  imageFileRef (home mounted) = None /\
  error (home (exec (processImage receipt_job) mounted)) =
    "Please select an image first to start conversion." /\
  loading (home (exec (processImage receipt_job) mounted)) = false /\
  events_of (processImage receipt_job) mounted = [].
Proof.
  split; [reflexivity|].
  destruct (C4_no_file_only_sets_error receipt_job mounted eq_refl)
    as (He & Hl & _ & _ & _ & _ & _ & Hev & _).
  split; [exact He|]. split; [exact Hl | exact Hev].
Defined.

(** ** Settling a job *)

(** C3: whatever value [createWorker] or [worker.recognize] rejects with, the
    job ends in the failed state: the error message carries the text of the
    thrown [Error] after the fixed prefix, or is the generic fallback for any
    other value; the extracted text is empty and the progress is 0. *)
Theorem C3_rejection_reaches_failed_state
    (t : Tesseract) (w : World) (file : File) (err : JsValue) :
  imageFileRef (home w) = Some file ->
  create_result t = Reject err \/
  (create_result t = Resolve tt /\ recognize_result t = Reject err) ->
  let h' := home (exec (processImage t) w) in
  error h' =
    match err with
    | JsError message => ("Failed to extract text: " ++ message)%string
    | JsOther _ => "Failed to extract text: An unexpected error occurred."
    end /\
  extractedText h' = "" /\
  progress h' = 0 /\
  progressLabel h' = "Error" /\
  loading h' = false.
Proof.
  intros Hf Hrej h'. subst h'. rewrite (processImage_home t w file Hf).
  unfold settled_home, outcome.
  destruct Hrej as [Hc | [Hc Hr]].
  - rewrite Hc. destruct err; repeat split; reflexivity.
  - rewrite Hc, Hr. destruct err; repeat split; reflexivity.
Qed.

Lemma C3_rejection_witness :
  error (home (exec (processImage network_error_job) receipt_selected)) =
    "Failed to extract text: network error" /\
  extractedText (home (exec (processImage network_error_job) receipt_selected)) = "" /\
  progress (home (exec (processImage network_error_job) receipt_selected)) = 0 /\
  progressLabel (home (exec (processImage network_error_job) receipt_selected)) = "Error" /\
  loading (home (exec (processImage network_error_job) receipt_selected)) = false.
Proof.
  apply (C3_rejection_reaches_failed_state network_error_job receipt_selected
           receipt_png (JsError "network error")).
  - reflexivity.
  - left. reflexivity.
Defined.

(** C7, as stated: [worker.recognize] resolving is not enough.  The call
    [await worker.terminate()] is still inside the [try] block; when it
    rejects, the [catch] block clears the text just stored. *)
Lemma C7_terminate_rejection_clears_text :
  recognize_result terminate_rejects_job = Resolve "TOTAL $12.34" /\
  extractedText (home (exec (processImage terminate_rejects_job) receipt_selected))
    <> "TOTAL $12.34" /\
  progress (home (exec (processImage terminate_rejects_job) receipt_selected))
    <> 100.
Proof.
  split; [reflexivity|]. split; vm_compute; discriminate.
Qed.

(** C7, amended: when [worker.recognize] resolves with text [text] and the
    following [worker.terminate()] resolves too, the final state stores
    exactly [text], progress 100 and the label [Done!], with no error and
    [loading] cleared. *)
Theorem C7_success_stores_text
    (t : Tesseract) (w : World) (file : File) (text : string) :
  imageFileRef (home w) = Some file ->
  create_result t = Resolve tt ->
  recognize_result t = Resolve text ->
  terminate_result t = Resolve tt ->
  let h' := home (exec (processImage t) w) in
  extractedText h' = text /\
  progress h' = 100 /\
  progressLabel h' = "Done!" /\
  error h' = "" /\
  loading h' = false.
Proof.
  intros Hf Hc Hr Ht h'. subst h'. rewrite (processImage_home t w file Hf).
  unfold settled_home, outcome. rewrite Hc, Hr, Ht.
  repeat split; reflexivity.
Qed.

Lemma C7_receipt_witness :
  extractedText (home (exec (processImage receipt_job) receipt_selected)) =
    "TOTAL $12.34" /\
  progress (home (exec (processImage receipt_job) receipt_selected)) = 100 /\
  progressLabel (home (exec (processImage receipt_job) receipt_selected)) = "Done!" /\
  error (home (exec (processImage receipt_job) receipt_selected)) = "" /\
  loading (home (exec (processImage receipt_job) receipt_selected)) = false.
Proof.
  apply (C7_success_stores_text receipt_job receipt_selected receipt_png
           "TOTAL $12.34"); reflexivity.
Defined.

(** ** Progress messages *)

Lemma percents_app (ms1 ms2 : list LoggerMessage.t) :
  percents (ms1 ++ ms2) = percents ms1 ++ percents ms2.
Proof. unfold percents. rewrite List.filter_app. apply map_app. Qed.


Lemma deliver_events (ms : list LoggerMessage.t) (w : World) :
  events_of (deliver ms) w = map SetProgress (percents ms).
Proof.
  apply events_of_log. unfold exec.
  destruct (deliver_spec ms w) as [label E]. rewrite E. reflexivity.
Qed.


(** C10: a message whose status is not [recognizing text] leaves the stored
    percentage (and everything but the label) as it was; a message whose
    status is none of the five known strings changes nothing at all. *)
Theorem C10_other_statuses_keep_progress (m : LoggerMessage.t) (w : World) :
  LoggerMessage.status m <> "recognizing text" ->
  progress (home (exec (logger m) w)) = progress (home w) /\
  events_of (logger m) w = [] /\
  (LoggerMessage.status m <> "loading tesseract core" ->
   LoggerMessage.status m <> "initializing tesseract" ->
   LoggerMessage.status m <> "loading language traineddata" ->
   LoggerMessage.status m <> "done" ->
   logger m w = (Normal tt, w)).
Proof.
  intros Hrec.
  assert (Hm : is_recognizing m = false).
  { unfold is_recognizing. apply String.eqb_neq. exact Hrec. }
  split; [|split].
  - unfold exec. destruct (logger_other m w Hm) as [label E]. rewrite E.
    reflexivity.
  - unfold events_of, exec. destruct (logger_other m w Hm) as [label E].
    rewrite E. cbn. apply drop_all.
  - intros H1 H2 H3 H4. unfold logger.
    apply String.eqb_neq in Hrec, H1, H2, H3, H4.
    rewrite Hrec, H1, H2, H3, H4. reflexivity.
Qed.

Lemma C10_other_statuses_witness :
  progress (home (exec (logger (LoggerMessage.mk "loading tesseract core" (1 # 2))) busy)) = 50 /\
  logger (LoggerMessage.mk "initialized api" (1 # 2)) busy = (Normal tt, busy).
Proof.
  split.
  - apply (C10_other_statuses_keep_progress
             (LoggerMessage.mk "loading tesseract core" (1 # 2)) busy).
    discriminate.
  - apply (C10_other_statuses_keep_progress
             (LoggerMessage.mk "initialized api" (1 # 2)) busy);
      discriminate.
Defined.

(** ** Selecting an image *)

Ltac project :=
  cbn [fst snd home browser effectDep log selectedImage extractedText progress
       progressLabel loading error imageFileRef nextURL liveURLs].

Lemma handleImageChange_run (file : File) (others : list File) (w : World) :
  handleImageChange (mkChangeEvent (Some (file :: others))) w =
    (Normal tt,
     mkWorld
       (mkHome (Some (nextURL (browser w))) "" 0 "Idle" (loading (home w)) ""
          (Some file))
       (mkBrowser (S (nextURL (browser w)))
          ({[ nextURL (browser w) ]} ∪ liveURLs (browser w)))
       (effectDep w)
       (log w ++ [CreateObjectURL (nextURL (browser w)); SetProgress 0])).
Proof.
  destruct w as [[si et p pl ld er fr] [n live] ed lg].
  eval_M. rewrite <- app_assoc. reflexivity.
Qed.


(** ** The sequence of progress updates of a job *)

Lemma progress_trace_app (l1 l2 : list Event) :
  progress_trace (l1 ++ l2) = progress_trace l1 ++ progress_trace l2.
Proof.
  induction l1 as [|e l1 IH]; [reflexivity|].
  destruct e; cbn; rewrite IH; reflexivity.
Qed.

Lemma progress_trace_SetProgress (l : list Z) :
  progress_trace (map SetProgress l) = l.
Proof. induction l as [|n l IH]; [reflexivity|]. cbn. rewrite IH. reflexivity. Qed.

(** The updates of a job: the reset, the percentages of the messages
    delivered, 100 once recognition has resolved, 0 once anything failed. *)
Lemma job_updates (t : Tesseract) (file : File) :
  progress_trace (job_events t file) =
    0 :: percents (create_messages t) ++
    match create_result t with
    | Reject _ => [0]
    | Resolve _ =>
        percents (recognize_messages t) ++
        match recognize_result t with
        | Reject _ => [0]
        | Resolve _ =>
            100 :: match terminate_result t with
                   | Reject _ => [0]
                   | Resolve _ => []
                   end
        end
    end.
Proof.
  unfold job_events. cbn [progress_trace].
  rewrite progress_trace_app, progress_trace_SetProgress.
  destruct (create_result t); [|reflexivity].
  cbn [progress_trace].
  rewrite progress_trace_app, progress_trace_SetProgress.
  destruct (recognize_result t); [|reflexivity].
  destruct (terminate_result t); reflexivity.
Qed.

Lemma percents_range (ms : list LoggerMessage.t) :
  Forall in_unit_interval ms ->
  Forall (fun n => 0 <= n <= 100) (percents ms).
Proof.
  induction 1 as [|m ms Hm _ IH]; [constructor|].
  unfold percents. cbn [List.filter].
  destruct (is_recognizing m); [|exact IH].
  constructor; [apply percent_range; exact Hm | exact IH].
Qed.

Lemma percents_sorted (ms : list LoggerMessage.t) :
  Sorted fraction_le (List.filter is_recognizing ms) ->
  Sorted Z.le (percents ms).
Proof.
  unfold percents. generalize (List.filter is_recognizing ms). clear ms.
  intros l. induction 1 as [|m l _ IH Hhd]; [constructor|].
  cbn [map]. constructor; [exact IH|].
  destruct Hhd as [|m' l' Hle]; constructor.
  apply Math_round_mono. unfold fraction_le in Hle. lra.
Qed.

Lemma sorted_between (l : list Z) :
  Sorted Z.le l ->
  Forall (fun n => 0 <= n <= 100) l ->
  Sorted Z.le (0 :: l) /\ Sorted Z.le (0 :: l ++ [100]).
Proof.
  intros Hs Hr. apply Sorted_StronglySorted in Hs; [|exact _].
  assert (H0 : Forall (Z.le 0) l).
  { eapply Forall_impl; [exact Hr|]. intros n Hn. cbn in Hn. lia. }
  split; apply StronglySorted_Sorted.
  - constructor; assumption.
  - constructor.
    + apply StronglySorted_app_2.
      * intros x1 x2 H1 H2. apply list_elem_of_singleton in H2. subst x2.
        rewrite Forall_forall in Hr. apply Hr in H1. lia.
      * exact Hs.
      * repeat constructor.
    + apply Forall_app. split; [exact H0|]. repeat constructor. lia.
Qed.

(** C8, as stated: with every fraction in [0, 1] the stored percentage can
    still go down within a job.  The logger stores whatever the engine
    reports, so a report of 90% followed by one of 25% gives 0, 90, 25, 100;
    and a job that fails at 50% is reset by the [catch] block: 0, 50, 0. *)
Lemma C8_progress_can_decrease :
  (Forall in_unit_interval
     (create_messages regressing_job ++ recognize_messages regressing_job) /\
   progress_trace (events_of (processImage regressing_job) receipt_selected) =
     [0; 90; 25; 100] /\
   ~ Sorted Z.le
       (progress_trace (events_of (processImage regressing_job) receipt_selected)))
  /\
  (Forall in_unit_interval
     (create_messages recognize_rejects_job ++
      recognize_messages recognize_rejects_job) /\
   progress_trace (events_of (processImage recognize_rejects_job) receipt_selected) =
     [0; 50; 0] /\
   ~ Sorted Z.le
       (progress_trace
          (events_of (processImage recognize_rejects_job) receipt_selected))).
Proof.
  assert (E1 : progress_trace
                 (events_of (processImage regressing_job) receipt_selected) =
               [0; 90; 25; 100]) by (vm_compute; reflexivity).
  assert (E2 : progress_trace
                 (events_of (processImage recognize_rejects_job) receipt_selected) =
               [0; 50; 0]) by (vm_compute; reflexivity).
  split; (split; [|split]).
  - repeat constructor; unfold Qle; cbn; lia.
  - exact E1.
  - rewrite E1. intros H.
    inversion H as [|? ? H1 _]; subst.
    inversion H1 as [|? ? _ Hhd]; subst.
    inversion Hhd; subst. lia.
  - repeat constructor; unfold Qle; cbn; lia.
  - exact E2.
  - rewrite E2. intros H.
    inversion H as [|? ? H1 _]; subst.
    inversion H1 as [|? ? _ Hhd]; subst.
    inversion Hhd; subst. lia.
Qed.

(** C8, amended: in a job whose fractions all lie in [0, 1], every stored
    percentage lies in [0, 100]; and when the fractions of the
    [recognizing text] messages come in non-decreasing order, the updates of a
    job that succeeds are non-decreasing, while those of a job that fails are
    non-decreasing up to the final reset to 0. *)
Theorem C8_progress_range_and_order (t : Tesseract) (w : World) (file : File) :
  imageFileRef (home w) = Some file ->
  Forall in_unit_interval (create_messages t ++ recognize_messages t) ->
  let updates := progress_trace (events_of (processImage t) w) in
  Forall (fun n => 0 <= n <= 100) updates /\
  (Sorted fraction_le
     (List.filter is_recognizing (create_messages t ++ recognize_messages t)) ->
   match outcome t with
   | Succeeded _ => Sorted Z.le updates
   | Failed _ => exists body, updates = body ++ [0] /\ Sorted Z.le body
   end).
Proof.
  intros Hf Hunit updates. subst updates.
  rewrite (processImage_events t w file Hf), job_updates.
  pose proof (percents_range _ Hunit) as Hr.
  rewrite percents_app in Hr. apply Forall_app in Hr as [Hr1 Hr2].
  assert (Hr12 : Forall (fun n => 0 <= n <= 100)
                   (percents (create_messages t) ++
                    percents (recognize_messages t)))
    by (apply Forall_app; split; assumption).
  split.
  - constructor; [lia|]. apply Forall_app. split; [exact Hr1|].
    destruct (create_result t); [|repeat constructor; lia].
    apply Forall_app. split; [exact Hr2|].
    destruct (recognize_result t); [|repeat constructor; lia].
    destruct (terminate_result t); repeat constructor; lia.
  - intros Hs. apply percents_sorted in Hs. rewrite percents_app in Hs.
    destruct (sorted_between _ Hs Hr12) as [S0 S100].
    assert (S1 : Sorted Z.le (0 :: percents (create_messages t))).
    { apply Sorted_StronglySorted in S0; [|exact _].
      apply StronglySorted_Sorted.
      change (0 :: percents (create_messages t) ++ percents (recognize_messages t))
        with ((0 :: percents (create_messages t)) ++ percents (recognize_messages t))
        in S0.
      apply StronglySorted_app_1_l in S0. exact S0. }
    unfold outcome.
    destruct (create_result t) as [[]|e].
    + destruct (recognize_result t) as [text|e].
      * destruct (terminate_result t) as [[]|e].
        -- rewrite app_assoc. exact S100.
        -- exists (0 :: (percents (create_messages t) ++
                         percents (recognize_messages t)) ++ [100]).
           split; [|exact S100].
           cbn. rewrite <- !app_assoc. reflexivity.
      * exists (0 :: percents (create_messages t) ++
                     percents (recognize_messages t)).
        split; [|exact S0]. cbn. rewrite <- !app_assoc. reflexivity.
    + exists (0 :: percents (create_messages t)).
      split; [reflexivity | exact S1].
Qed.

Lemma C8_receipt_witness :
  Forall (fun n => 0 <= n <= 100)
    (progress_trace (events_of (processImage receipt_job) receipt_selected)) /\
  Sorted Z.le
    (progress_trace (events_of (processImage receipt_job) receipt_selected)).
Proof.
  assert (Hf : imageFileRef (home receipt_selected) = Some receipt_png)
    by reflexivity.
  assert (Hu : Forall in_unit_interval
                 (create_messages receipt_job ++ recognize_messages receipt_job))
    by (repeat constructor; unfold Qle; cbn; lia).
  destruct (C8_progress_range_and_order receipt_job receipt_selected
              receipt_png Hf Hu) as [Hrange Hsorted].
  split; [exact Hrange|].
  apply Hsorted.
  repeat constructor; unfold fraction_le, Qle; cbn; lia.
Defined.

(** ** Object URLs *)

Lemma handles_ok_mounted : handles_ok mounted.
Proof. repeat split. Qed.

Lemma commit_effects_idle (w : World) :
  effectDep w = Some (selectedImage (home w)) ->
  commit_effects w = (Normal tt, w).
Proof.
  intros H. unfold commit_effects. rewrite H.
  destruct (decide (selectedImage (home w) = selectedImage (home w)));
    [reflexivity | contradiction].
Qed.

Lemma processImage_frame (t : Tesseract) (w : World) :
  selectedImage (home (exec (processImage t) w)) = selectedImage (home w) /\
  browser (exec (processImage t) w) = browser w /\
  effectDep (exec (processImage t) w) = effectDep w.
Proof.
  unfold exec. destruct (imageFileRef (home w)) as [file|] eqn:Hf.
  - rewrite (processImage_run t w file Hf). cbn.
    unfold settled_home. destruct (outcome t); repeat split.
  - rewrite (processImage_no_file t w Hf). repeat split.
Qed.

Lemma onClick_handles_ok (t : Tesseract) (w : World) :
  handles_ok w -> handles_ok (exec (onClick t) w).
Proof.
  intros Hok. unfold exec, onClick, get_home, mbind, M_bind.
  destruct (convertDisabled (home w)); [exact Hok|].
  destruct (processImage_frame t w) as (Hs & Hb & He).
  unfold exec in Hs, Hb, He.
  destruct (processImage t w) as [[[]|e] w1] eqn:E; cbn in Hs, Hb, He |- *.
  - rewrite commit_effects_idle.
    + unfold handles_ok. cbn. rewrite Hs, Hb, He. exact Hok.
    + rewrite Hs, He. apply Hok.
  - unfold handles_ok. rewrite Hs, Hb, He. exact Hok.
Qed.

Lemma onChange_no_file (event : ChangeEvent) (w : World) :
  match files event with Some (_ :: _) => False | _ => True end ->
  handles_ok w -> exec (onChange event) w = w.
Proof.
  intros Hev Hok. unfold exec, onChange, handleImageChange, mbind, M_bind.
  destruct (files event) as [[|file others]|]; try contradiction;
    cbn; rewrite commit_effects_idle by apply Hok; reflexivity.
Qed.

(** A selection issues a fresh handle and the commit that follows revokes the
    one it replaces. *)
Lemma onChange_select (file : File) (others : list File) (w : World) :
  handles_ok w ->
  let w' := exec (onChange (mkChangeEvent (Some (file :: others)))) w in
  handles_ok w' /\
  selectedImage (home w') = Some (nextURL (browser w)) /\
  liveURLs (browser w') = {[ nextURL (browser w) ]}.
Proof.
  intros (Hed & Hlive & Hlt) w'. subst w'.
  unfold exec, onChange, mbind, M_bind.
  rewrite handleImageChange_run.
  unfold commit_effects. project. rewrite Hed.
  destruct (decide (selectedImage (home w) = Some (nextURL (browser w))))
    as [Heq|Hne].
  { rewrite Heq in Hlt. lia. }
  unfold handles_ok, effect_cleanup, URL_revokeObjectURL, set_effectDep,
    mbind, M_bind, mret, M_ret.
  destruct (selectedImage (home w)) as [u|]; project; rewrite Hlive.
  - repeat split; [|lia|]; set_solver by lia.
  - repeat split; [|lia|]; set_solver.
Qed.

Lemma dispatch_handles_ok (a : Action) (w : World) :
  handles_ok w -> handles_ok (exec (dispatch a) w).
Proof.
  intros Hok. destruct a as [[[[|file others]|]]|t]; cbn [dispatch].
  - rewrite onChange_no_file; [exact Hok | exact I | exact Hok].
  - apply (onChange_select file others w Hok).
  - rewrite onChange_no_file; [exact Hok | exact I | exact Hok].
  - apply onClick_handles_ok. exact Hok.
Qed.

Lemma run_handles_ok (acts : list Action) (w : World) :
  handles_ok w -> handles_ok (run acts w).
Proof.
  revert w. induction acts as [|a acts IH]; intros w Hok; [exact Hok|].
  cbn. apply IH. apply dispatch_handles_ok. exact Hok.
Qed.

Lemma unmount_releases_all (w : World) :
  handles_ok w -> liveURLs (browser (exec unmount w)) = ∅.
Proof.
  intros (Hed & Hlive & _). unfold exec, unmount, effect_cleanup. rewrite Hed.
  destruct (selectedImage (home w)) as [u|]; cbn; rewrite Hlive; set_solver.
Qed.

Lemma run_app (acts1 acts2 : list Action) (w : World) :
  run (acts1 ++ acts2) w = run acts2 (run acts1 w).
Proof. unfold run. apply fold_left_app. Qed.

(** C9: after any history of the mounted component, let [earlier] and then
    [file] be selected one after the other.  Once [file] is selected, the
    preview shows the handle issued for it, that handle is the only live one,
    and the handle shown before, the one of the previous selection, has been
    revoked. *)
Theorem C9_only_latest_handle_live
    (history : list Action) (earlier : list File) (file : File) :
  let before := run (history ++ map select earlier) mounted in
  let after := run (history ++ map select (earlier ++ [file])) mounted in
  selectedImage (home after) = Some (nextURL (browser before)) /\
  liveURLs (browser after) = {[ nextURL (browser before) ]} /\
  size (liveURLs (browser after)) = 1%nat /\
  match selectedImage (home before) with
  | Some u => u ∉ liveURLs (browser after)
  | None => True
  end.
Proof.
  intros before after.
  assert (Hok : handles_ok before).
  { apply run_handles_ok, handles_ok_mounted. }
  assert (Hafter : after = exec (dispatch (select file)) before).
  { subst after before. rewrite map_app, app_assoc, run_app. reflexivity. }
  destruct (onChange_select file [] before Hok) as (_ & Hsel & Hlive).
  rewrite Hafter. cbn [dispatch select].
  split; [exact Hsel|]. split; [exact Hlive|]. rewrite Hlive.
  split; [apply size_singleton|].
  destruct Hok as (_ & _ & Hlt).
  destruct (selectedImage (home before)) as [u|]; [|exact I].
  set_solver by lia.
Qed.

Example two_selections_one_live :
  liveURLs (browser (run [select receipt_png; select (mkFile "b.jpg" "image/jpeg")] mounted)) =
    {[ 1%nat ]} /\
  log (run [select receipt_png; select (mkFile "b.jpg" "image/jpeg")] mounted) =
    [CreateObjectURL 0%nat; SetProgress 0;
     CreateObjectURL 1%nat; SetProgress 0; RevokeObjectURL 0%nat].
Proof. split; vm_compute; reflexivity. Qed.

(** ** The receipt scenario, step by step *)

Example receipt_job_calls :
  events_of (processImage receipt_job) receipt_selected =
    [SetProgress 0; WorkerCreated "eng" 1; Recognize (Some receipt_png);
     SetProgress 25; SetProgress 90; SetProgress 100; Terminate].
Proof. vm_compute. reflexivity. Qed.

Example recognizing_label :
  progressLabel
    (home (exec (logger (LoggerMessage.mk "recognizing text" (1 # 4))) busy)) =
    "Recognizing text: 25%".
Proof. vm_compute. reflexivity. Qed.

Example round_half_up :
  Math_round (5 # 2) = 3 /\ Math_round (-5 # 2) = -2 /\
  Math_round ((145 # 1000) * 100) = 15.
Proof. repeat split. Qed.

(** * Further properties of the component *)

(** ** What a job always and never does *)

Lemma processImage_events_no_file (t : Tesseract) (w : World) :
  imageFileRef (home w) = None -> events_of (processImage t) w = [].
Proof.
  intros Hf. apply events_of_log. unfold exec.
  rewrite (processImage_no_file t w Hf). project. symmetry. apply app_nil_r.
Qed.

Lemma processImage_normal (t : Tesseract) (w : World) :
  fst (processImage t w) = Normal tt.
Proof.
  destruct (imageFileRef (home w)) as [file|] eqn:Hf.
  - rewrite (processImage_run t w file Hf). reflexivity.
  - rewrite (processImage_no_file t w Hf). reflexivity.
Qed.

(** X2: [processImage] never throws, whatever the engine does: every
    rejection is caught.  When a file is selected it always ends with
    [loading] cleared, on success and on every failure; with no file it
    leaves [loading] as it was. *)
Theorem processImage_always_settles (t : Tesseract) (w : World) :
  fst (processImage t w) = Normal tt /\
  loading (home (exec (processImage t) w)) =
    match imageFileRef (home w) with
    | Some _ => false
    | None => loading (home w)
    end.
Proof.
  unfold exec. destruct (imageFileRef (home w)) as [file|] eqn:Hf.
  - rewrite (processImage_run t w file Hf). project. split; [reflexivity|].
    unfold settled_home. destruct (outcome t); reflexivity.
  - rewrite (processImage_no_file t w Hf). split; reflexivity.
Qed.

Lemma created_urls_app (l1 l2 : list Event) :
  created_urls (l1 ++ l2) = created_urls l1 ++ created_urls l2.
Proof.
  induction l1 as [|e l1 IH]; [reflexivity|].
  destruct e; cbn; rewrite IH; reflexivity.
Qed.

Lemma revoked_urls_app (l1 l2 : list Event) :
  revoked_urls (l1 ++ l2) = revoked_urls l1 ++ revoked_urls l2.
Proof.
  induction l1 as [|e l1 IH]; [reflexivity|].
  destruct e; cbn; rewrite IH; reflexivity.
Qed.

Lemma created_urls_SetProgress (l : list Z) :
  created_urls (map SetProgress l) = [].
Proof. induction l as [|n l IH]; [reflexivity | exact IH]. Qed.

Lemma revoked_urls_SetProgress (l : list Z) :
  revoked_urls (map SetProgress l) = [].
Proof. induction l as [|n l IH]; [reflexivity | exact IH]. Qed.

Lemma job_events_no_urls (t : Tesseract) (file : File) :
  created_urls (job_events t file) = [] /\
  revoked_urls (job_events t file) = [].
Proof.
  unfold job_events.
  destruct (create_result t), (recognize_result t), (terminate_result t);
    cbn [created_urls revoked_urls];
    repeat (rewrite created_urls_app || rewrite revoked_urls_app
            || rewrite created_urls_SetProgress
            || rewrite revoked_urls_SetProgress
            || cbn [created_urls revoked_urls app]);
    split; reflexivity.
Qed.

(** X3: a job never touches the selection.  Whatever its outcome,
    [processImage] leaves the preview URL, the file held in [imageFileRef],
    the object-URL store and the registered cleanup as they were, and creates
    or revokes no object URL. *)
Theorem processImage_keeps_selection (t : Tesseract) (w : World) :
  selectedImage (home (exec (processImage t) w)) = selectedImage (home w) /\
  imageFileRef (home (exec (processImage t) w)) = imageFileRef (home w) /\
  browser (exec (processImage t) w) = browser w /\
  effectDep (exec (processImage t) w) = effectDep w /\
  created_urls (events_of (processImage t) w) = [] /\
  revoked_urls (events_of (processImage t) w) = [].
Proof.
  destruct (processImage_frame t w) as (Hs & Hb & He).
  split; [exact Hs|]. split; [|split; [exact Hb|split; [exact He|]]].
  - unfold exec. destruct (imageFileRef (home w)) as [file|] eqn:Hf.
    + rewrite (processImage_run t w file Hf). project.
      unfold settled_home. destruct (outcome t); exact Hf.
    + rewrite (processImage_no_file t w Hf). reflexivity.
  - destruct (imageFileRef (home w)) as [file|] eqn:Hf.
    + rewrite (processImage_events t w file Hf). apply job_events_no_urls.
    + rewrite (processImage_events_no_file t w Hf). split; reflexivity.
Qed.

(** X4: a job starts from a clean slate.  Two states that hold the same file
    and show the same preview end in the same component state and make the
    same calls under the same engine behaviour, whatever text, progress, label,
    error or [loading] flag they started with.  In particular a job after a
    failed one behaves like a first job. *)
Theorem processImage_forgets_earlier_results
    (t : Tesseract) (w1 w2 : World) (file : File) :
  imageFileRef (home w1) = Some file ->
  imageFileRef (home w2) = Some file ->
  selectedImage (home w1) = selectedImage (home w2) ->
  home (exec (processImage t) w1) = home (exec (processImage t) w2) /\
  events_of (processImage t) w1 = events_of (processImage t) w2.
Proof.
  intros H1 H2 Hs. split.
  - rewrite (processImage_home t w1 file H1), (processImage_home t w2 file H2).
    unfold settled_home. rewrite H1, H2, Hs. reflexivity.
  - rewrite (processImage_events t w1 file H1), (processImage_events t w2 file H2).
    reflexivity.
Qed.

Lemma processImage_retry_witness :
  home (exec (processImage receipt_job) receipt_selected) =
    home (exec (processImage receipt_job)
            (exec (processImage network_error_job) receipt_selected)) /\
  events_of (processImage receipt_job) receipt_selected =
    events_of (processImage receipt_job)
      (exec (processImage network_error_job) receipt_selected).
Proof.
  apply (processImage_forgets_earlier_results receipt_job receipt_selected
           (exec (processImage network_error_job) receipt_selected)
           receipt_png); reflexivity.
Defined.

(** ** The calls made to the engine *)

Lemma recognitions_app (l1 l2 : list Event) :
  recognitions (l1 ++ l2) = (recognitions l1 + recognitions l2)%nat.
Proof. unfold recognitions. rewrite List.filter_app. apply length_app. Qed.

Lemma recognitions_SetProgress (l : list Z) :
  recognitions (map SetProgress l) = 0%nat.
Proof. induction l as [|n l IH]; [reflexivity | exact IH]. Qed.

Lemma recognitions_cons (e : Event) (l : list Event) :
  recognitions (e :: l) =
    ((match e with Recognize _ => 1 | _ => 0 end) + recognitions l)%nat.
Proof. destruct e; reflexivity. Qed.

Ltac count_calls :=
  repeat (rewrite recognitions_cons || rewrite recognitions_app
          || rewrite recognitions_SetProgress || count_events).

Lemma Forall_SetProgress (P : Event -> Prop) (l : list Z) :
  (forall n, P (SetProgress n)) -> Forall P (map SetProgress l).
Proof. intros HP. induction l; constructor; auto. Qed.

(** X5: the protocol of the engine calls.  In every job [worker.recognize]
    is called exactly as often as a session has been created, which is at most
    once; [worker.terminate] is called at most as often as
    [worker.recognize]; and the image handed to [worker.recognize] is the file
    held in [imageFileRef]. *)
Theorem job_call_protocol (t : Tesseract) (w : World) :
  (terminations (events_of (processImage t) w)
     <= recognitions (events_of (processImage t) w))%nat /\
  recognitions (events_of (processImage t) w)
    = sessions (events_of (processImage t) w) /\
  (sessions (events_of (processImage t) w) <= 1)%nat /\
  Forall (fun e => match e with
                   | Recognize image => image = imageFileRef (home w)
                   | _ => True
                   end)
    (events_of (processImage t) w).
Proof.
  destruct (imageFileRef (home w)) as [file|] eqn:Hf.
  - rewrite (processImage_events t w file Hf). unfold job_events.
    assert (HF : forall l, Forall (fun e => match e with
                                   | Recognize image => image = Some file
                                   | _ => True
                                   end) (map SetProgress l))
      by (intros l; apply Forall_SetProgress; intros; exact I).
    destruct (create_result t), (recognize_result t), (terminate_result t);
      count_calls; cbn;
      (split; [lia|]); (split; [lia|]); (split; [lia|]);
      repeat first [ exact I
                   | reflexivity
                   | apply Forall_nil
                   | apply HF
                   | apply Forall_cons; split
                   | apply Forall_app; split ].
  - rewrite (processImage_events_no_file t w Hf).
    repeat split; cbn; try lia. constructor.
Qed.

(** ** The component between two events *)

Lemma onChange_select_world (file : File) (others : list File) (w : World) :
  handles_ok w ->
  exec (onChange (mkChangeEvent (Some (file :: others)))) w =
    mkWorld
      (mkHome (Some (nextURL (browser w))) "" 0 "Idle" (loading (home w)) ""
         (Some file))
      (mkBrowser (S (nextURL (browser w))) {[ nextURL (browser w) ]})
      (Some (Some (nextURL (browser w))))
      (log w ++ [CreateObjectURL (nextURL (browser w)); SetProgress 0] ++
       match selectedImage (home w) with
       | Some u => [RevokeObjectURL u]
       | None => []
       end).
Proof.
  intros (Hed & Hlive & Hlt).
  unfold exec, onChange, mbind, M_bind.
  rewrite handleImageChange_run.
  unfold commit_effects. project. rewrite Hed.
  destruct (decide (selectedImage (home w) = Some (nextURL (browser w))))
    as [Heq|Hne].
  { rewrite Heq in Hlt. lia. }
  unfold effect_cleanup, URL_revokeObjectURL, set_effectDep,
    mbind, M_bind, mret, M_ret.
  destruct (selectedImage (home w)) as [u|]; project; rewrite Hlive.
  - rewrite <- app_assoc. f_equal. f_equal. set_solver by lia.
  - rewrite app_nil_r. f_equal. f_equal. set_solver.
Qed.

Lemma onClick_world (t : Tesseract) (w : World) :
  effectDep w = Some (selectedImage (home w)) ->
  exec (onClick t) w =
    if convertDisabled (home w) then w else exec (processImage t) w.
Proof.
  intros Hed. unfold exec, onClick, get_home, mbind, M_bind.
  destruct (convertDisabled (home w)); [reflexivity|].
  destruct (processImage_frame t w) as (Hs & _ & He).
  pose proof (processImage_normal t w) as Hn.
  unfold exec in Hs, He.
  destruct (processImage t w) as [c w1]. cbn in Hs, He, Hn |- *. subst c.
  rewrite commit_effects_idle; [reflexivity|]. rewrite Hs, He. exact Hed.
Qed.

Lemma convert_enabled_file (h : Home) :
  convertDisabled h = false ->
  exists file, imageFileRef h = Some file.
Proof.
  unfold convertDisabled. intros H. apply orb_false_iff in H as [H _].
  destruct (imageFileRef h) as [file|]; [exists file; reflexivity|].
  cbn in H. discriminate H.
Qed.

Lemma at_rest_mounted : at_rest mounted.
Proof.
  split; [apply handles_ok_mounted|].
  split; [exact I|]. split; [left; reflexivity|]. split; [reflexivity|].
  split; [reflexivity | split; reflexivity].
Qed.

Lemma at_rest_select (file : File) (others : list File) (w : World) :
  at_rest w ->
  at_rest (exec (onChange (mkChangeEvent (Some (file :: others)))) w).
Proof.
  intros (Hok & Hsync & Herr & Hload & Hcre & Hrev).
  split; [apply (onChange_select file others w Hok)|].
  rewrite (onChange_select_world file others w Hok).
  split; [exact I|]. split; [left; reflexivity|]. split; [exact Hload|].
  unfold urls_accounted. project.
  rewrite created_urls_app, revoked_urls_app, Hcre.
  destruct (selectedImage (home w)) as [u|].
  - destruct Hrev as [Hn Hrev]. rewrite Hrev, Hn.
    cbn [created_urls revoked_urls app].
    split; [|split; [reflexivity|]]; symmetry; apply seq_S.
  - destruct Hrev as [Hn Hrev]. rewrite Hrev, Hn.
    split; [reflexivity | split; reflexivity].
Qed.

Lemma at_rest_processImage (t : Tesseract) (w : World) (file : File) :
  imageFileRef (home w) = Some file ->
  at_rest w -> at_rest (exec (processImage t) w).
Proof.
  intros Hf (Hok & Hsync & Herr & Hload & Hcre & Hrev).
  unfold exec. rewrite (processImage_run t w file Hf). cbn [snd].
  assert (Hsel : selectedImage (settled_home t (home w)) = selectedImage (home w))
    by (unfold settled_home; destruct (outcome t); reflexivity).
  assert (Href : imageFileRef (settled_home t (home w)) = imageFileRef (home w))
    by (unfold settled_home; destruct (outcome t); reflexivity).
  split; [|split; [|split; [|split]]].
  - unfold handles_ok. project. rewrite Hsel. exact Hok.
  - unfold selection_in_sync. project. rewrite Hsel, Href. exact Hsync.
  - unfold error_from_catch. project. unfold settled_home.
    destruct (outcome t) as [text|[message|repr]]; cbn.
    + left. reflexivity.
    + right. exists message. reflexivity.
    + right. exists "An unexpected error occurred.". reflexivity.
  - project. unfold settled_home. destruct (outcome t); reflexivity.
  - destruct (job_events_no_urls t file) as [Hc Hr].
    unfold urls_accounted. project.
    rewrite created_urls_app, revoked_urls_app, Hc, Hr, !app_nil_r, Hsel.
    split; [exact Hcre | exact Hrev].
Qed.

Lemma at_rest_dispatch (a : Action) (w : World) :
  at_rest w -> at_rest (exec (dispatch a) w).
Proof.
  intros Hrest. destruct a as [[[[|file others]|]]|t]; cbn [dispatch].
  - rewrite onChange_no_file; [exact Hrest | exact I | apply Hrest].
  - apply at_rest_select. exact Hrest.
  - rewrite onChange_no_file; [exact Hrest | exact I | apply Hrest].
  - rewrite onClick_world by apply Hrest.
    destruct (convertDisabled (home w)) eqn:Hd; [exact Hrest|].
    destruct (convert_enabled_file _ Hd) as [file Hf].
    apply (at_rest_processImage t w file Hf Hrest).
Qed.

Lemma at_rest_run (acts : list Action) (w : World) :
  at_rest w -> at_rest (run acts w).
Proof.
  revert w. induction acts as [|a acts IH]; intros w Hrest; [exact Hrest|].
  cbn. apply IH. apply at_rest_dispatch. exact Hrest.
Qed.

(** X1: a change event without a file (the picker was cancelled:
    [event.target.files] is [null] or empty) changes nothing.
    [handleImageChange] returns the state it got, and after any history the
    whole event leaves the file, the preview, the results and the live object
    URL as they were. *)
Theorem cancelled_picker_changes_nothing
    (history : list Action) (event : ChangeEvent) :
  files event = None \/ files event = Some [] ->
  (forall w, handleImageChange event w = (Normal tt, w)) /\
  exec (onChange event) (run history mounted) = run history mounted.
Proof.
  intros Hev.
  assert (Hno : match files event with Some (_ :: _) => False | _ => True end)
    by (destruct Hev as [-> | ->]; exact I).
  split.
  - intros w. unfold handleImageChange.
    destruct Hev as [-> | ->]; reflexivity.
  - apply onChange_no_file; [exact Hno|].
    apply run_handles_ok, handles_ok_mounted.
Qed.

Lemma cancelled_picker_witness :
  exec (onChange (mkChangeEvent (Some [])))
    (run [select receipt_png; Click receipt_job] mounted) =
  run [select receipt_png; Click receipt_job] mounted.
Proof.
  apply (cancelled_picker_changes_nothing
           [select receipt_png; Click receipt_job] (mkChangeEvent (Some []))).
  right. reflexivity.
Defined.

(** X6: the message asking to select an image first cannot be reached from
    the page.  The convert button is disabled as long as no file is held, and
    nothing ever empties [imageFileRef]; so after any history of selections
    and clicks the error cell is empty or holds a message of the [catch]
    block, never the one of the guard of [processImage]. *)
Theorem select_first_message_unreachable (history : list Action) :
  (error (home (run history mounted)) = "" \/
   exists message,
     error (home (run history mounted)) =
       String.append "Failed to extract text: " message) /\
  error (home (run history mounted)) <>
    "Please select an image first to start conversion.".
Proof.
  destruct (at_rest_run history mounted at_rest_mounted)
    as (_ & _ & Herr & _).
  split; [exact Herr|].
  destruct Herr as [-> | [message ->]]; discriminate.
Qed.

(** X7: unmounting after any history releases the preview: no object URL
    stays live, and the URLs revoked are exactly the URLs created, in the
    same order. *)
Theorem unmount_leaves_no_url (history : list Action) :
  liveURLs (browser (exec unmount (run history mounted))) = ∅ /\
  revoked_urls (log (exec unmount (run history mounted))) =
    created_urls (log (exec unmount (run history mounted))).
Proof.
  destruct (at_rest_run history mounted at_rest_mounted)
    as (Hok & _ & _ & _ & Hcre & Hrev).
  split; [apply unmount_releases_all; exact Hok|].
  destruct Hok as (Hed & _ & _).
  unfold exec, unmount, effect_cleanup, URL_revokeObjectURL. rewrite Hed.
  destruct (selectedImage (home (run history mounted))) as [u|]; project.
  - destruct Hrev as [Hn Hrev].
    rewrite created_urls_app, revoked_urls_app, Hcre, Hrev, Hn.
    cbn [created_urls revoked_urls]. rewrite app_nil_r. symmetry. apply seq_S.
  - destruct Hrev as [Hn Hrev]. unfold mret, M_ret. project.
    rewrite Hcre, Hrev, Hn. reflexivity.
Qed.

(** X8: between two events (every started job has settled) a file is held
    exactly when a preview is shown, so the convert button is enabled exactly
    when there is a preview, and it reads [Convert Image to Text]. *)
Theorem convert_enabled_iff_preview (history : list Action) :
  let h := home (run history mounted) in
  match previewImage h, imageFileRef h with
  | Some _, Some _ => convertDisabled h = false
  | None, None => convertDisabled h = true
  | _, _ => False
  end /\
  convertButtonText h = "Convert Image to Text".
Proof.
  intros h. subst h.
  destruct (at_rest_run history mounted at_rest_mounted)
    as (_ & Hsync & _ & Hload & _).
  unfold selection_in_sync in Hsync.
  unfold previewImage, convertDisabled, convertButtonText. rewrite Hload.
  destruct (selectedImage (home (run history mounted))),
    (imageFileRef (home (run history mounted)));
    try contradiction; split; reflexivity.
Qed.

(** X14: every object URL is revoked exactly once, in the order of creation,
    except the one on display.  After any history the URLs created so far are
    pairwise distinct and are the revoked ones followed by the preview, if
    there is one. *)
Theorem urls_revoked_once_in_order (history : list Action) :
  let w := run history mounted in
  created_urls (log w) =
    revoked_urls (log w) ++
    match previewImage (home w) with
    | Some u => [u]
    | None => []
    end /\
  NoDup (created_urls (log w)).
Proof.
  intros w. subst w.
  destruct (at_rest_run history mounted at_rest_mounted)
    as (_ & _ & _ & _ & Hcre & Hrev).
  unfold previewImage. rewrite Hcre. split; [|apply NoDup_seq].
  destruct (selectedImage (home (run history mounted))) as [u|];
    destruct Hrev as [Hn Hrev]; rewrite Hrev, Hn.
  - apply seq_S.
  - reflexivity.
Qed.

(** ** What the page shows *)

Lemma failure_text_truthy (err : JsValue) : truthy (failure_text err) = true.
Proof. destruct err; reflexivity. Qed.

(** X9: what is on the page once a job on a selected file has settled.  The
    convert button is enabled again and reads [Convert Image to Text].  After
    a success there is no error banner, and the result panel shows the text
    unless the text is empty, in which case no panel is rendered at all; after
    a failure the banner shows the failure message and there is no result
    panel. *)
Theorem view_after_job (t : Tesseract) (w : World) (file : File) :
  imageFileRef (home w) = Some file ->
  let h' := home (exec (processImage t) w) in
  convertButtonText h' = "Convert Image to Text" /\
  convertDisabled h' = false /\
  match outcome t with
  | Succeeded text =>
      errorBanner h' = None /\
      resultPanel h' = if String.eqb text "" then None else Some text
  | Failed err =>
      errorBanner h' = Some (failure_text err) /\
      resultPanel h' = None
  end.
Proof.
  intros Hf h'. subst h'. rewrite (processImage_home t w file Hf).
  unfold settled_home, convertButtonText, convertDisabled, errorBanner,
    resultPanel.
  destruct (outcome t) as [text|err]; project; rewrite Hf.
  - split; [reflexivity|]. split; [reflexivity|]. split; [reflexivity|].
    unfold truthy. destruct (String.eqb text ""); reflexivity.
  - split; [reflexivity|]. split; [reflexivity|].
    rewrite failure_text_truthy. split; reflexivity.
Qed.

Lemma view_after_job_witness :
  convertButtonText (home (exec (processImage network_error_job) receipt_selected)) =
    "Convert Image to Text" /\
  convertDisabled (home (exec (processImage network_error_job) receipt_selected)) =
    false /\
  errorBanner (home (exec (processImage network_error_job) receipt_selected)) =
    Some "Failed to extract text: network error" /\
  resultPanel (home (exec (processImage network_error_job) receipt_selected)) =
    None.
Proof.
  apply (view_after_job network_error_job receipt_selected receipt_png).
  reflexivity.
Defined.



(** X13: logger messages only move the progress and its label.  Any list of
    messages, of any status, is handled without an exception and leaves the
    extracted text, the error, [loading], the preview, the held file and the
    object-URL store untouched; [setProgress] is called once per
    [recognizing text] message. *)
Theorem logger_messages_only_move_progress
    (ms : list LoggerMessage.t) (w : World) :
  let w' := exec (deliver ms) w in
  fst (deliver ms w) = Normal tt /\
  extractedText (home w') = extractedText (home w) /\
  error (home w') = error (home w) /\
  loading (home w') = loading (home w) /\
  selectedImage (home w') = selectedImage (home w) /\
  imageFileRef (home w') = imageFileRef (home w) /\
  browser w' = browser w /\
  effectDep w' = effectDep w /\
  length (events_of (deliver ms) w) = length (List.filter is_recognizing ms).
Proof.
  intros w'. subst w'. rewrite deliver_events. unfold exec.
  destruct (deliver_spec ms w) as [label E]. rewrite E. project.
  unfold percents. rewrite !length_map. repeat split.
Qed.

(** ** Copying the result *)

Lemma resultPanel_Some (h : Home) (text : string) :
  resultPanel h = Some text -> text = extractedText h /\ text <> "".
Proof.
  unfold resultPanel, truthy.
  destruct (String.eqb (extractedText h) "") eqn:E; [discriminate|].
  intros [= <-]. split; [reflexivity|]. apply String.eqb_neq. exact E.
Qed.

Lemma onCopyClick_cases (writeText : Settled unit) (h : Home) (d : Desktop) :
  onCopyClick writeText h d = d \/
  (extractedText h <> "" /\
   onCopyClick writeText h d =
     mkDesktop (extractedText h) (alerts d ++ ["Text copied to clipboard!"])
       (consoleErrors d)) \/
  (exists err,
     onCopyClick writeText h d =
       mkDesktop (clipboard d) (alerts d)
         (consoleErrors d ++ [("Failed to copy text: ", err)])).
Proof.
  unfold onCopyClick. destruct (resultPanel h) as [text|] eqn:Hp; [|left; reflexivity].
  apply resultPanel_Some in Hp as [-> Hne].
  destruct writeText as [[]|err]; cbn.
  - right. left. split; [exact Hne | reflexivity].
  - right. right. exists err. reflexivity.
Qed.

(** X11: the copy button never empties the clipboard and only ever confirms.
    Over any series of clicks on it, in whatever states of the component and
    however the clipboard writes settle, a clipboard that held text still
    holds text afterwards, every alert shown is the confirmation
    [Text copied to clipboard!], and there are at most as many new alerts as
    clicks. *)
Theorem copy_never_empties_clipboard
    (clicks : list (Settled unit * Home)) (d : Desktop) :
  clipboard d <> "" ->
  clipboard (copy_clicks clicks d) <> "" /\
  exists k : nat,
    (k <= length clicks)%nat /\
    alerts (copy_clicks clicks d) =
      alerts d ++ repeat "Text copied to clipboard!" k.
Proof.
  revert d. induction clicks as [|[writeText h] clicks IH]; intros d Hd.
  - split; [exact Hd|]. exists 0%nat. split; [reflexivity|].
    cbn. symmetry. apply app_nil_r.
  - change (copy_clicks ((writeText, h) :: clicks) d)
      with (copy_clicks clicks (onCopyClick writeText h d)).
    destruct (onCopyClick_cases writeText h d)
      as [E | [[Hne E] | [err E]]]; rewrite E.
    + destruct (IH d Hd) as [Hc [k [Hk Ha]]].
      split; [exact Hc|]. exists k. split; [cbn; lia | exact Ha].
    + destruct (IH (mkDesktop (extractedText h)
                      (alerts d ++ ["Text copied to clipboard!"])
                      (consoleErrors d)) Hne) as [Hc [k [Hk Ha]]].
      split; [exact Hc|]. exists (S k). split; [cbn; lia|].
      rewrite Ha. cbn [alerts repeat]. rewrite <- app_assoc. reflexivity.
    + destruct (IH (mkDesktop (clipboard d) (alerts d)
                      (consoleErrors d ++ [("Failed to copy text: ", err)]))
                  Hd) as [Hc [k [Hk Ha]]].
      split; [exact Hc|]. exists k. split; [cbn; lia | exact Ha].
Qed.

Lemma copy_never_empties_witness :
  clipboard
    (copy_clicks
       [(Resolve tt, home receipt_selected);
        (Resolve tt, home (exec (processImage receipt_job) receipt_selected));
        (Reject (JsOther "NotAllowedError"), home busy)]
       (mkDesktop "old" [] [])) <> "".
Proof.
  apply (copy_never_empties_clipboard
           [(Resolve tt, home receipt_selected);
            (Resolve tt, home (exec (processImage receipt_job) receipt_selected));
            (Reject (JsOther "NotAllowedError"), home busy)]
           (mkDesktop "old" [] [])).
  discriminate.
Defined.

(** X12: from the engine to the clipboard.  After a job on a selected file, a
    click on the copy button whose clipboard write resolves puts exactly the
    recognised text on the clipboard and confirms it; when the write rejects,
    the clipboard keeps its content, nothing is alerted and the error is
    logged.  When the job failed, or recognised the empty text, there is no
    copy button and the click does nothing. *)
Theorem copy_after_job
    (t : Tesseract) (w : World) (file : File)
    (writeText : Settled unit) (d : Desktop) :
  imageFileRef (home w) = Some file ->
  onCopyClick writeText (home (exec (processImage t) w)) d =
    match outcome t with
    | Succeeded text =>
        if String.eqb text "" then d
        else match writeText with
             | Resolve _ =>
                 mkDesktop text (alerts d ++ ["Text copied to clipboard!"])
                   (consoleErrors d)
             | Reject err =>
                 mkDesktop (clipboard d) (alerts d)
                   (consoleErrors d ++ [("Failed to copy text: ", err)])
             end
    | Failed _ => d
    end.
Proof.
  intros Hf. rewrite (processImage_home t w file Hf).
  unfold settled_home, onCopyClick, resultPanel, truthy, copyText.
  destruct (outcome t) as [text|err]; project; [|reflexivity].
  destruct (String.eqb text ""); reflexivity.
Qed.

Lemma copy_after_job_witness :
  onCopyClick (Resolve tt)
    (home (exec (processImage receipt_job) receipt_selected))
    (mkDesktop "old" [] []) =
  mkDesktop "TOTAL $12.34" ["Text copied to clipboard!"] [].
Proof.
  apply (copy_after_job receipt_job receipt_selected receipt_png (Resolve tt)
           (mkDesktop "old" [] [])).
  reflexivity.
Defined.

(** ** From a selection to a job *)

